(** * A shallow embedding of the chatbot: generation backend and Streamlit page

  Two source files are embedded here:
  - [backend] ([generate_response]): encode, generate, decode;
  - [app]: the Streamlit script that keeps the chat log in the session
    state, handles the "Send" button and renders the log.

  Python values are modelled as follows.  A [str] is the list of its Unicode
  code points; a dict [{"user": .., "bot": ..}] is a record; the list
  [chat_log] is a list updated by index; a call that may raise is a
  computation in a state-and-exception monad whose state survives a raise,
  as the mutations of a Python program do. *)

From Stdlib Require Import String Ascii NArith List Lia.
From stdpp Require Import base list.
Import ListNotations.

Local Open Scope N_scope.
Local Open Scope list_scope.

(** ** Python strings *)

Module PyStr.

(** A Python [str]: a sequence of Unicode code points. *)
Abbreviation str := (list N).

(** A string literal of the source (all of them are ASCII). *)
Definition lit (s : string) : str :=
  map N_of_ascii (list_ascii_of_string s).

(** [str.isspace] on one code point: the characters that [str.strip()]
    removes (CPython's [_PyUnicode_IsWhitespace]). *)
Definition isspace (c : N) : bool :=
  ((0x09 <=? c) && (c <=? 0x0D)) ||
  ((0x1C <=? c) && (c <=? 0x20)) ||
  (c =? 0x85) || (c =? 0xA0) || (c =? 0x1680) ||
  ((0x2000 <=? c) && (c <=? 0x200A)) ||
  (c =? 0x2028) || (c =? 0x2029) || (c =? 0x202F) ||
  (c =? 0x205F) || (c =? 0x3000).

Fixpoint lstrip (s : str) : str :=
  match s with
  | [] => []
  | c :: t => if isspace c then lstrip t else s
  end.

Definition rstrip (s : str) : str := rev (lstrip (rev s)).

(** [s.strip()]: leading and trailing whitespace removed. *)
Definition strip (s : str) : str := rstrip (lstrip s).

(** [s == t] on strings. *)
Definition str_eqb (s t : str) : bool := bool_decide (s = t).

(** A string is blank when every character of it is whitespace (the empty
    string included). *)
Definition blank (s : str) : bool := forallb isspace s.

End PyStr.
Import PyStr.

(** ** Exceptions and the monad of effectful calls *)

Module Py.

(** A raised Python exception: whether it is an instance of [Exception]
    (else it derives from [BaseException] only, as [KeyboardInterrupt] and
    [SystemExit] do) and what [str(e)] gives. *)
Record exc : Type := Exc { exc_is_Exception : bool; exc_str : str }.

Inductive result (A : Type) : Type :=
| Ret (a : A)
| Raise (e : exc).
Arguments Ret {A} a.
Arguments Raise {A} e.

(** A computation over a mutable state [S]: the state is returned on a
    raise too, since mutations made before a raise stay. *)
Definition M (S A : Type) : Type := S -> result A * S.

Definition ret {S A} (a : A) : M S A := fun s => (Ret a, s).

Definition raise {S A} (e : exc) : M S A := fun s => (Raise e, s).

Definition bind {S A B} (m : M S A) (k : A -> M S B) : M S B :=
  fun s =>
    match m s with
    | (Ret a, s') => k a s'
    | (Raise e, s') => (Raise e, s')
    end.

Definition get {S} : M S S := fun s => (Ret s, s).
Definition put {S} (s : S) : M S unit := fun _ => (Ret tt, s).
Definition modify {S} (f : S -> S) : M S unit := fun s => (Ret tt, f s).

(** [try: body  except Exception as e: handler e]. *)
Definition try_except_Exception {S A}
    (body : M S A) (handler : exc -> M S A) : M S A :=
  fun s =>
    match body s with
    | (Ret a, s') => (Ret a, s')
    | (Raise e, s') =>
        if exc_is_Exception e then handler e s' else (Raise e, s')
    end.

(** [for x in xs: body x]. *)
Fixpoint for_each {S A} (xs : list A) (body : A -> M S unit) : M S unit :=
  match xs with
  | [] => ret tt
  | x :: xs' => bind (body x) (fun _ => for_each xs' body)
  end.

(** Run a computation of a smaller state inside a larger one. *)
Definition zoom {S T A} (proj : T -> S) (upd : S -> T -> T)
    (m : M S A) : M T A :=
  fun t => let '(r, s') := m (proj t) in (r, upd s' t).

Definition IndexError (msg : string) : exc :=
  {| exc_is_Exception := true; exc_str := lit msg |}.
Definition AttributeError (msg : string) : exc :=
  {| exc_is_Exception := true; exc_str := lit msg |}.

End Py.
Import Py.

Declare Scope py_scope.
Delimit Scope py_scope with py.
Notation "x <- m ;; k" := (bind m (fun x => k))
  (at level 100, m at next level, right associativity) : py_scope.
Notation "m ;; k" := (bind m (fun _ => k))
  (at level 100, right associativity) : py_scope.
Local Open Scope py_scope.

(** ** The generation backend *)

Module backend.

(** A token id, and a two-dimensional tensor of token ids as the list of
    its rows. *)
Abbreviation tokens := (list N).
Abbreviation tensor := (list (list N)).

(** The keyword arguments of [model.generate]. *)
Record generate_kwargs : Type := GenerateKwargs {
  max_length : N;
  num_return_sequences : N;
  no_repeat_ngram_size : N
}.

(** The pretrained model and its tokenizer, owned by an external library.
    [W] is whatever that runtime keeps between calls. *)
Record Runtime (W : Type) : Type := {
  (** [tokenizer.encode(prompt, return_tensors="pt")] *)
  tokenizer_encode : str -> M W tensor;
  (** [model.generate(inputs, **kwargs)] *)
  model_generate : tensor -> generate_kwargs -> M W tensor;
  (** [tokenizer.decode(ids, skip_special_tokens=flag)] *)
  tokenizer_decode : tokens -> bool -> M W str
}.
Arguments tokenizer_encode {W} _ _ _.
Arguments model_generate {W} _ _ _ _.
Arguments tokenizer_decode {W} _ _ _ _.

(** [MODEL_NAME = "gpt2"] *)
Definition MODEL_NAME : str := lit "gpt2".

(** [outputs[0]]: the first row, [IndexError] on a tensor with no row. *)
Definition getitem0 {W} (t : tensor) : M W tokens :=
  match t with
  | [] => raise (IndexError "index 0 is out of bounds for dimension 0 with size 0")
  | row :: _ => ret row
  end.

(** The generation parameters written in the call. *)
Definition kwargs : generate_kwargs :=
  {| max_length := 50; num_return_sequences := 1; no_repeat_ngram_size := 2 |}.

Section Generator.
Context {W : Type} (rt : Runtime W).

Definition generate_response (prompt : str) : M W str :=
  inputs <- tokenizer_encode rt prompt ;;
  outputs <- model_generate rt inputs kwargs ;;
  row <- getitem0 outputs ;;
  response <- tokenizer_decode rt row true ;;
  ret response.

(** What the library documents of the shapes: encoding one string with
    [return_tensors="pt"] gives a batch of one row, and [generate] returns
    [num_return_sequences] rows per row of its input. *)
Definition shapes_respected : Prop :=
  (forall p w t w', tokenizer_encode rt p w = (Ret t, w') -> length t = 1%nat) /\
  (forall t kw w out w',
      model_generate rt t kw w = (Ret out, w') ->
      length out = (length t * N.to_nat (num_return_sequences kw))%nat).

(** A call that returns normally from runtime state [w]. *)
Definition succeeds {A} (m : M W A) (w : W) : Prop :=
  exists a w', m w = (Ret a, w').

End Generator.

End backend.

(** ** The Streamlit page *)

Module app.

(** One entry of the chat log: the dict [{"user": .., "bot": ..}]. *)
Record entry : Type := Entry { user : str; bot : str }.

(** What a call of the page framework puts on the page. *)
Inductive element : Type :=
| Title (body : str)
| Markdown (body : str)
| TextInput (label key : str)
| Button (label : str)
| Error (body : str)
| Write (body : str).

(** What the browser sends with the run of the script: the text of the input
    box and whether the run was triggered by a click on "Send". *)
Record widgets : Type := Widgets { input_box : str; send_clicked : bool }.

(** The state a run of the script works on: the state of the generator's
    runtime, the key [chat_log] of [st.session_state] ([None] while the key
    is absent), and the elements rendered so far in this run. *)
Record state (W : Type) : Type := State {
  world : W;
  chat_log : option (list entry);
  page : list element
}.
Arguments State {W} _ _ _.
Arguments world {W} _.
Arguments chat_log {W} _.
Arguments page {W} _.

Definition set_world {W} (w : W) (s : state W) : state W :=
  {| world := w; chat_log := chat_log s; page := page s |}.
Definition set_chat_log {W} (l : option (list entry)) (s : state W) : state W :=
  {| world := world s; chat_log := l; page := page s |}.
Definition set_page {W} (p : list element) (s : state W) : state W :=
  {| world := world s; chat_log := chat_log s; page := p |}.

Definition set_bot (v : str) (e : entry) : entry :=
  {| user := user e; bot := v |}.

(** The placeholder and the error marker written in the source. *)
Definition PLACEHOLDER : str := lit "Thinking...".
Definition ERROR_MARKER : str := lit "Error: Unable to process your request.".
Definition VALIDATION_NOTICE : str := lit "Please enter a message.".

Section Page.
Context {W : Type}.

(** The imported [generate_response]. *)
Variable generate_response : str -> M W str.

(** *** The framework calls *)

Definition emit (e : element) : M (state W) unit :=
  modify (fun s => set_page (page s ++ [e]) s).

Definition st_title (body : string) : M (state W) unit := emit (Title (lit body)).
Definition st_markdown (body : str) : M (state W) unit := emit (Markdown body).
Definition st_write (body : string) : M (state W) unit := emit (Write (lit body)).
Definition st_error (body : str) : M (state W) unit := emit (Error body).

Definition st_text_input (ev : widgets) (label key : string) : M (state W) str :=
  emit (TextInput (lit label) (lit key)) ;; ret (input_box ev).

Definition st_button (ev : widgets) (label : string) : M (state W) bool :=
  emit (Button (lit label)) ;; ret (send_clicked ev).

(** *** [st.session_state.chat_log] *)

(** ["chat_log" in st.session_state] *)
Definition has_chat_log : M (state W) bool :=
  s <- get ;; ret (match chat_log s with Some _ => true | None => false end).

(** [st.session_state.chat_log = l] *)
Definition assign_chat_log (l : list entry) : M (state W) unit :=
  modify (set_chat_log (Some l)).

(** [st.session_state.chat_log]: [AttributeError] while the key is absent. *)
Definition get_chat_log : M (state W) (list entry) :=
  s <- get ;;
  match chat_log s with
  | Some l => ret l
  | None => raise (AttributeError "st.session_state has no attribute chat_log")
  end.

(** [st.session_state.chat_log.append(e)] *)
Definition chat_log_append (e : entry) : M (state W) unit :=
  l <- get_chat_log ;; assign_chat_log (l ++ [e]).

(** [st.session_state.chat_log[-1]["bot"] = v]: [IndexError] on an empty
    list, else the last dict is updated in place. *)
Definition chat_log_set_last_bot (v : str) : M (state W) unit :=
  l <- get_chat_log ;;
  match l with
  | [] => raise (IndexError "list index out of range")
  | _ :: _ => assign_chat_log (alter (set_bot v) (pred (length l)) l)
  end.

(** *** The script, block by block *)

Definition header : M (state W) unit :=
  st_title "Chatbot Application" ;;
  st_markdown (lit "This is a simple chatbot interface built using Streamlit.").

Definition init_session_state : M (state W) unit :=
  present <- has_chat_log ;;
  if negb present then assign_chat_log [] else ret tt.

(** The append of the pending entry. *)
Definition append_pending (user_input : str) : M (state W) unit :=
  chat_log_append {| user := user_input; bot := PLACEHOLDER |}.

(** The [try] / [except Exception as e] around the generator call. *)
Definition generate_and_resolve (user_input : str) : M (state W) unit :=
  try_except_Exception
    (bot_response <- zoom world set_world (generate_response user_input) ;;
     chat_log_set_last_bot bot_response)
    (fun e =>
       chat_log_set_last_bot ERROR_MARKER ;;
       st_error (lit "An error occurred: " ++ exc_str e)).

(** The body of [if st.button("Send"):]. *)
Definition on_send (user_input : str) : M (state W) unit :=
  if str_eqb (strip user_input) (lit "") then
    st_error VALIDATION_NOTICE
  else
    append_pending user_input ;;
    generate_and_resolve user_input.

(** The two lines rendered for one entry. *)
Definition render_entry (chat : entry) : M (state W) unit :=
  st_markdown (lit "**You:** " ++ user chat) ;;
  st_markdown (lit "**Bot:** " ++ bot chat).

(** The chat display area. *)
Definition display : M (state W) unit :=
  st_write "### Chat Log:" ;;
  l <- get_chat_log ;;
  for_each l render_entry.

(** The whole script, run once per interaction. *)
Definition script (ev : widgets) : M (state W) unit :=
  header ;;
  init_session_state ;;
  user_input <- st_text_input ev "Type your message:" "input_box" ;;
  clicked <- st_button ev "Send" ;;
  (if clicked then on_send user_input else ret tt) ;;
  display.

(** A run of the script starts from an empty page; the runtime and the
    session state are those the previous run left, however it ended. *)
Definition run (ev : widgets) (s : state W) : result unit * state W :=
  script ev (set_page [] s).

Definition rerun (ev : widgets) (s : state W) : state W := snd (run ev s).

(** A session on first load. *)
Definition fresh (w : W) : state W :=
  {| world := w; chat_log := None; page := [] |}.

(** A submission: a run triggered by "Send" with [text] in the input box. *)
Definition submission (text : str) : widgets :=
  {| input_box := text; send_clicked := true |}.

(** A run triggered by anything else, which only renders again. *)
Definition refresh (text : str) : widgets :=
  {| input_box := text; send_clicked := false |}.

Definition submit (text : str) (s : state W) : state W := rerun (submission text) s.

(** The transcript of a session: the chat log, empty before the first load. *)
Definition transcript (s : state W) : list entry :=
  match chat_log s with Some l => l | None => [] end.

End Page.

End app.

Import app.

(** ** Notions the properties are stated with *)

Module Spec.

(** The elements every run renders before the button is handled. *)
Definition page_head : list element :=
  [ Title (lit "Chatbot Application");
    Markdown (lit "This is a simple chatbot interface built using Streamlit.");
    TextInput (lit "Type your message:") (lit "input_box");
    Button (lit "Send") ].

(** The two lines of one entry, and the lines of a whole log, in order. *)
Definition entry_lines (chat : entry) : list element :=
  [ Markdown (lit "**You:** " ++ user chat);
    Markdown (lit "**Bot:** " ++ bot chat) ].

Definition log_lines (l : list entry) : list element :=
  flat_map entry_lines l.

(** The page of a run that reaches its end: the head, the notices of the
    button handler, the heading of the log and the lines of the log. *)
Definition rendered (notices : list element) (l : list entry) : list element :=
  page_head ++ notices ++ Write (lit "### Chat Log:") :: log_lines l.

(** The notice of the [except] branch for an exception [e]. *)
Definition failure_notice (e : exc) : element :=
  Error (lit "An error occurred: " ++ exc_str e).

(** An entry is pending while its bot text is the placeholder. *)
Definition pending (e : entry) : bool := str_eqb (bot e) PLACEHOLDER.

(** The bot text an entry is left with by the outcome of its generator
    call: the returned text, the error marker for an instance of
    [Exception], and the untouched placeholder when the exception is not one
    and leaves the script. *)
Definition bot_after (o : result str) : str :=
  match o with
  | Ret r => r
  | Raise e => if exc_is_Exception e then ERROR_MARKER else PLACEHOLDER
  end.

Section Session.
Context {W : Type} (generate_response : str -> M W str).

(** The part of a submitting run that comes before the generator call. *)
Definition before_generate (ev : widgets) : M (state W) unit :=
  header ;;
  init_session_state ;;
  user_input <- st_text_input ev "Type your message:" "input_box" ;;
  _ <- st_button ev "Send" ;;
  append_pending user_input.

(** The state the generator is called in when [text] is submitted in [s]. *)
Definition in_flight (text : str) (s : state W) : state W :=
  snd (before_generate (submission text) (set_page [] s)).

(** The part of a submitting run from the generator call on. *)
Definition from_generate (text : str) : M (state W) unit :=
  generate_and_resolve generate_response text ;;
  display.

(** The states a session goes through: first load, then one run of the
    script per interaction. *)
Inductive reachable (w0 : W) : state W -> Prop :=
| reachable_fresh : reachable w0 (fresh w0)
| reachable_rerun s ev :
    reachable w0 s -> reachable w0 (rerun generate_response ev s).

(** A sequence of runs, one per interaction, oldest first. *)
Definition reruns (evs : list widgets) (s : state W) : state W :=
  fold_left (fun s' ev => rerun generate_response ev s') evs s.

(** The generator never answers with the placeholder text itself. *)
Definition never_placeholder : Prop :=
  forall p w r w', generate_response p w = (Ret r, w') -> r <> PLACEHOLDER.

(** Whatever the generator raises is an instance of [Exception]. *)
Definition raises_only_Exception : Prop :=
  forall p w e w', generate_response p w = (Raise e, w') -> exc_is_Exception e = true.

End Session.

End Spec.
Import Spec.

(** ** Concrete generators and a concrete runtime *)

Module Demo.

(** Answers with the prompt behind a fixed prefix; counts its calls. *)
Definition echo (prompt : str) : M nat str :=
  fun n => (Ret (lit "You said: " ++ prompt), S n).

(** Answers with the very text of the placeholder. *)
Definition parrot (prompt : str) : M nat str :=
  fun n => (Ret PLACEHOLDER, S n).

(** Fails with an instance of [Exception]. *)
Definition out_of_memory : exc :=
  {| exc_is_Exception := true; exc_str := lit "CUDA out of memory" |}.
Definition failing (prompt : str) : M nat str :=
  fun n => (Raise out_of_memory, S n).

(** Raises an exception that is not an instance of [Exception]. *)
Definition system_exit : exc :=
  {| exc_is_Exception := false; exc_str := lit "1" |}.
Definition exiting (prompt : str) : M nat str :=
  fun n => (Raise system_exit, S n).

(** A toy runtime: tokens are code points, generation appends an
    end-of-text token and cuts at [max_length], decoding drops that token
    when asked to skip special tokens. *)
Definition EOS : N := 50256.

Definition toy_generate_row (kw : backend.generate_kwargs) (row : list N) : list (list N) :=
  repeat (firstn (N.to_nat (backend.max_length kw)) (row ++ [EOS]))
         (N.to_nat (backend.num_return_sequences kw)).

Definition toy : backend.Runtime nat :=
  {| backend.tokenizer_encode := fun p n => (Ret [p], S n);
     backend.model_generate := fun t kw n => (Ret (flat_map (toy_generate_row kw) t), S n);
     backend.tokenizer_decode := fun ids skip n =>
       (Ret (if skip then filter (fun c => negb (c =? EOS)) ids else ids), S n) |}.

End Demo.

(** ** Notions for whole runs and for the page on top of the backend *)

Module Derived.
Import backend.

(** The two tests a run passes before it appends an entry: the button was
    clicked and [user_input.strip() == ""] is false. *)
Definition accepted (ev : widgets) : bool :=
  send_clicked ev && negb (str_eqb (strip (input_box ev)) (lit "")).

Section Notices.
Context {W : Type} (generate_response : str -> M W str).

(** The [st.error] notices of the button handler in a run that reaches its
    end: the validation notice, the failure notice of the [except] branch,
    or none. *)
Definition notices_of (ev : widgets) (s : state W) : list element :=
  if send_clicked ev then
    if str_eqb (strip (input_box ev)) (lit "") then [Error VALIDATION_NOTICE]
    else
      match fst (generate_response (input_box ev) (world s)) with
      | Ret _ => []
      | Raise e => [failure_notice e]
      end
  else [].

End Notices.

(** Whatever a call into the runtime raises is an instance of [Exception]. *)
Definition runtime_raises_only_Exception {W} (rt : Runtime W) : Prop :=
  (forall p w e w', tokenizer_encode rt p w = (Raise e, w') -> exc_is_Exception e = true) /\
  (forall t kw w e w', model_generate rt t kw w = (Raise e, w') -> exc_is_Exception e = true) /\
  (forall ids skip w e w',
      tokenizer_decode rt ids skip w = (Raise e, w') -> exc_is_Exception e = true).

(** A runtime whose generation always fails with an instance of
    [Exception]; encoding and decoding are those of the toy runtime. *)
Definition out_of_memory_runtime : Runtime nat :=
  {| tokenizer_encode := tokenizer_encode Demo.toy;
     model_generate := fun _ _ n => (Raise Demo.out_of_memory, S n);
     tokenizer_decode := tokenizer_decode Demo.toy |}.

(** A runtime whose generation returns a tensor with no row. *)
Definition empty_batch_runtime : Runtime nat :=
  {| tokenizer_encode := tokenizer_encode Demo.toy;
     model_generate := fun _ _ n => (Ret [], S n);
     tokenizer_decode := tokenizer_decode Demo.toy |}.

End Derived.
Import Derived.

(** * Properties *)

(** ** Stripping *)

Module StripFacts.

Lemma lit_empty : lit "" = [].
Proof. reflexivity. Qed.

Lemma lstrip_nil_blank (s : str) : lstrip s = [] <-> blank s = true.
Proof.
  induction s as [|c t IH]; simpl.
  - tauto.
  - destruct (isspace c); simpl; [exact IH | split; discriminate].
Qed.

Lemma blank_app (s t : str) : blank (s ++ t) = blank s && blank t.
Proof. apply forallb_app. Qed.

Lemma blank_rev (s : str) : blank (rev s) = blank s.
Proof.
  induction s as [|c t IH]; simpl; [reflexivity|].
  rewrite blank_app, IH. simpl.
  destruct (isspace c), (blank t); reflexivity.
Qed.

Lemma blank_lstrip (s : str) : blank (lstrip s) = blank s.
Proof.
  induction s as [|c t IH]; simpl; [reflexivity|].
  destruct (isspace c) eqn:Hc; simpl; [exact IH | now rewrite Hc].
Qed.

Lemma rev_nil_inv {A} (l : list A) : rev l = [] -> l = [].
Proof.
  intros H. apply (f_equal (@rev A)) in H. now rewrite rev_involutive in H.
Qed.

Lemma rstrip_nil_blank (s : str) : rstrip s = [] <-> blank s = true.
Proof.
  unfold rstrip. rewrite <- (blank_rev s), <- lstrip_nil_blank.
  split; [apply rev_nil_inv | intros ->; reflexivity].
Qed.

(** [s.strip() == ""] holds exactly for the blank strings. *)
Lemma strip_nil_blank (s : str) : strip s = [] <-> blank s = true.
Proof. unfold strip. now rewrite rstrip_nil_blank, blank_lstrip. Qed.

Lemma strip_test (s : str) : str_eqb (strip s) (lit "") = blank s.
Proof.
  unfold str_eqb. rewrite lit_empty.
  destruct (blank s) eqn:Hb.
  - apply bool_decide_eq_true, strip_nil_blank, Hb.
  - apply bool_decide_eq_false. rewrite strip_nil_blank, Hb. discriminate.
Qed.

(** A string that is not blank has a character that is not whitespace, and
    so is not empty. *)
Lemma not_blank_has_char (s : str) :
  blank s = false -> exists c, In c s /\ isspace c = false.
Proof.
  induction s as [|c t IH]; simpl; [discriminate|].
  destruct (isspace c) eqn:Hc; simpl.
  - intros H. destruct (IH H) as (d & Hd & Hs). exists d. auto.
  - intros _. exists c. auto.
Qed.

End StripFacts.

(** ** The equations of a run *)

Module RunFacts.
Import StripFacts.

Section Equations.
Context {W : Type} (gen : str -> M W str).

Lemma for_each_render (l : list entry) (s : state W) :
  for_each l (render_entry (W:=W)) s = (Ret tt, set_page (page s ++ log_lines l) s).
Proof.
  revert s. induction l as [|e l IH]; intros s.
  - simpl. unfold ret, log_lines. simpl. rewrite app_nil_r. now destruct s.
  - simpl. unfold bind at 1. unfold render_entry at 1.
    unfold st_markdown, emit, modify, bind. rewrite IH.
    unfold set_page, log_lines. simpl. rewrite <- !app_assoc. reflexivity.
Qed.

Lemma display_eq (s : state W) (l : list entry) :
  chat_log s = Some l ->
  display s = (Ret tt, set_page (page s ++ Write (lit "### Chat Log:") :: log_lines l) s).
Proof.
  intros Hl. unfold display, st_write, emit, modify, get_chat_log, bind, get. simpl.
  rewrite Hl. unfold ret. rewrite for_each_render.
  unfold set_page. simpl. rewrite <- app_assoc. reflexivity.
Qed.

(** The state in which the generator is called: the pending entry is at the
    end of the log and the head of the page is rendered. *)
Lemma in_flight_eq (text : str) (s : state W) :
  in_flight text s =
  {| world := world s;
     chat_log := Some (transcript s ++ [ {| user := text; bot := PLACEHOLDER |} ]);
     page := page_head |}.
Proof.
  unfold in_flight, before_generate, transcript.
  destruct s as [w [l|] p]; reflexivity.
Qed.

Lemma before_generate_returns (text : str) (s : state W) :
  before_generate (submission text) (set_page [] s) = (Ret tt, in_flight text s).
Proof.
  unfold in_flight, before_generate. destruct s as [w [l|] p]; reflexivity.
Qed.

(** A run without a click renders and changes nothing else. *)
Lemma run_refresh (text : str) (s : state W) :
  run gen (refresh text) s =
  (Ret tt, {| world := world s; chat_log := Some (transcript s);
              page := rendered [] (transcript s) |}).
Proof.
  unfold run, script, transcript.
  destruct s as [w [l|] p]; unfold bind; simpl;
    erewrite display_eq by reflexivity; reflexivity.
Qed.

(** A blank submission renders the validation notice. *)
Lemma run_blank (text : str) (s : state W) :
  blank text = true ->
  run gen (submission text) s =
  (Ret tt, {| world := world s; chat_log := Some (transcript s);
              page := rendered [Error VALIDATION_NOTICE] (transcript s) |}).
Proof.
  intros Hb. unfold run, script, transcript, on_send.
  destruct s as [w [l|] p]; unfold bind; simpl;
    rewrite strip_test, Hb; unfold st_error, emit, modify; simpl;
    erewrite display_eq by reflexivity; reflexivity.
Qed.

(** A submission that passes the check is the rest of the run started in
    the in-flight state. *)
Lemma run_split (text : str) (s : state W) :
  blank text = false ->
  run gen (submission text) s = from_generate gen text (in_flight text s).
Proof.
  intros Hb. rewrite in_flight_eq.
  unfold run, script, from_generate, transcript, on_send.
  destruct s as [w [l|] p]; unfold bind; simpl;
    rewrite strip_test, Hb; reflexivity.
Qed.

Lemma set_last_bot_snoc (v : str) (l : list entry) (e : entry) (w : W) (p : list element) :
  chat_log_set_last_bot v {| world := w; chat_log := Some (l ++ [e]); page := p |} =
  (Ret tt, {| world := w; chat_log := Some (l ++ [set_bot v e]); page := p |}).
Proof.
  unfold chat_log_set_last_bot, get_chat_log, bind, get. simpl.
  destruct (l ++ [e]) as [|x y] eqn:Hle.
  - destruct l; discriminate.
  - rewrite <- Hle. unfold assign_chat_log, modify, set_chat_log. simpl.
    rewrite length_app. simpl. rewrite Nat.add_1_r. simpl.
    rewrite alter_app_r_alt by lia. rewrite Nat.sub_diag. reflexivity.
Qed.

(** The three ways the generator call can end, seen from the in-flight
    state. *)
Lemma resolve_returns (text r : str) (w w' : W) (l : list entry) (e : entry) (p : list element) :
  gen text w = (Ret r, w') ->
  generate_and_resolve gen text {| world := w; chat_log := Some (l ++ [e]); page := p |} =
  (Ret tt, {| world := w'; chat_log := Some (l ++ [set_bot r e]); page := p |}).
Proof.
  intros Hg. unfold generate_and_resolve, try_except_Exception, bind at 1, zoom. simpl.
  rewrite Hg. unfold set_world. simpl. now rewrite set_last_bot_snoc.
Qed.

Lemma resolve_recovers (text : str) (x : exc) (w w' : W) (l : list entry) (e : entry) (p : list element) :
  gen text w = (Raise x, w') -> exc_is_Exception x = true ->
  generate_and_resolve gen text {| world := w; chat_log := Some (l ++ [e]); page := p |} =
  (Ret tt, {| world := w'; chat_log := Some (l ++ [set_bot ERROR_MARKER e]);
              page := p ++ [failure_notice x] |}).
Proof.
  intros Hg Hx. unfold generate_and_resolve, try_except_Exception, bind at 1, zoom. simpl.
  rewrite Hg, Hx. unfold set_world, bind. simpl. now rewrite set_last_bot_snoc.
Qed.

Lemma resolve_escapes (text : str) (x : exc) (w w' : W) (l : list entry) (e : entry) (p : list element) :
  gen text w = (Raise x, w') -> exc_is_Exception x = false ->
  generate_and_resolve gen text {| world := w; chat_log := Some (l ++ [e]); page := p |} =
  (Raise x, {| world := w'; chat_log := Some (l ++ [e]); page := p |}).
Proof.
  intros Hg Hx. unfold generate_and_resolve, try_except_Exception, bind at 1, zoom. simpl.
  rewrite Hg, Hx. reflexivity.
Qed.

(** A whole submitting run, for each way the generator call can end. *)
Lemma run_returns (text r : str) (w' : W) (s : state W) :
  blank text = false ->
  gen text (world s) = (Ret r, w') ->
  run gen (submission text) s =
  (Ret tt,
   let l := transcript s ++ [ {| user := text; bot := r |} ] in
   {| world := w'; chat_log := Some l; page := rendered [] l |}).
Proof.
  intros Hb Hg. rewrite run_split, in_flight_eq by exact Hb.
  unfold from_generate, bind. erewrite resolve_returns by exact Hg.
  erewrite display_eq by reflexivity. reflexivity.
Qed.

Lemma run_recovers (text : str) (x : exc) (w' : W) (s : state W) :
  blank text = false ->
  gen text (world s) = (Raise x, w') -> exc_is_Exception x = true ->
  run gen (submission text) s =
  (Ret tt,
   let l := transcript s ++ [ {| user := text; bot := ERROR_MARKER |} ] in
   {| world := w'; chat_log := Some l; page := rendered [failure_notice x] l |}).
Proof.
  intros Hb Hg Hx. rewrite run_split, in_flight_eq by exact Hb.
  unfold from_generate, bind. erewrite resolve_recovers by eassumption.
  erewrite display_eq by reflexivity. reflexivity.
Qed.

Lemma run_escapes (text : str) (x : exc) (w' : W) (s : state W) :
  blank text = false ->
  gen text (world s) = (Raise x, w') -> exc_is_Exception x = false ->
  run gen (submission text) s =
  (Raise x,
   {| world := w';
      chat_log := Some (transcript s ++ [ {| user := text; bot := PLACEHOLDER |} ]);
      page := page_head |}).
Proof.
  intros Hb Hg Hx. rewrite run_split, in_flight_eq by exact Hb.
  unfold from_generate, bind. erewrite resolve_escapes by eassumption.
  reflexivity.
Qed.

(** Case analysis on the outcome of the generator call of a submission that
    passes the check, with the run rewritten by the matching equation. *)
Ltac by_outcome gen text s :=
  let r := fresh "r" in
  let x := fresh "x" in
  let w' := fresh "w'" in
  destruct (gen text (world s)) as [[r|x] w'] eqn:Hg;
  [ erewrite run_returns by eassumption
  | destruct (exc_is_Exception x) eqn:Hx;
    [ erewrite run_recovers by eassumption
    | erewrite run_escapes by eassumption ] ].

(** The transcript after any run, in one equation. *)
Lemma transcript_rerun (ev : widgets) (s : state W) :
  transcript (rerun gen ev s) =
  if send_clicked ev && negb (blank (input_box ev)) then
    transcript s ++
      [ {| user := input_box ev; bot := bot_after (fst (gen (input_box ev) (world s))) |} ]
  else transcript s.
Proof.
  destruct ev as [text [|]]; simpl.
  - destruct (blank text) eqn:Hb; simpl.
    + unfold rerun. fold (submission text). now rewrite run_blank.
    + unfold rerun. fold (submission text).
      by_outcome gen text s; simpl; try rewrite Hx; reflexivity.
  - unfold rerun. fold (refresh text). now rewrite run_refresh.
Qed.

Lemma transcript_submit (text : str) (s : state W) :
  blank text = false ->
  transcript (submit gen text s) =
  transcript s ++ [ {| user := text; bot := bot_after (fst (gen text (world s))) |} ].
Proof.
  intros Hb. unfold submit. rewrite transcript_rerun. simpl. now rewrite Hb.
Qed.

(** The runtime state after a submission that passes the check is the one
    the generator call leaves. *)
Lemma world_submit (text : str) (s : state W) :
  blank text = false ->
  world (submit gen text s) = snd (gen text (world s)).
Proof.
  intros Hb. unfold submit, rerun.
  by_outcome gen text s; reflexivity.
Qed.

End Equations.

(** A notice of the button handler is on the page of a run that ends. *)
Lemma notice_rendered (n : element) (notices : list element) (l : list entry) :
  In n notices -> In n (rendered notices l).
Proof.
  intros Hn. unfold rendered. rewrite !in_app_iff. right. left. exact Hn.
Qed.

End RunFacts.

(** ** The session: submissions, recovery, validation *)

Module Session.
Import StripFacts RunFacts.

Lemma not_stripped_empty (text : str) : strip text <> lit "" -> blank text = false.
Proof.
  intros H. destruct (blank text) eqn:Hb; [|reflexivity].
  exfalso. apply H. rewrite lit_empty. now apply strip_nil_blank.
Qed.

(** C1, amended.  After a submission whose input is not empty once stripped
    and whose generator call returns [r], the run ends normally and the last
    entry of the transcript has the submitted input as [user] and [r] as
    [bot]; that [bot] is the placeholder text only when [r] is itself that
    text. *)
Theorem successful_submission_last_entry {W} (gen : str -> M W str)
    (s : state W) (text r : str) (w' : W) :
  strip text <> lit "" ->
  gen text (world s) = (Ret r, w') ->
  fst (run gen (submission text) s) = Ret tt /\
  last (transcript (submit gen text s)) = Some {| user := text; bot := r |} /\
  (forall e, last (transcript (submit gen text s)) = Some e ->
             (bot e = lit "Thinking..." <-> r = lit "Thinking...")).
Proof.
  intros Hne Hg. apply not_stripped_empty in Hne.
  pose proof (transcript_submit gen text s Hne) as Ht.
  rewrite Hg in Ht. simpl in Ht. rewrite Ht, last_snoc.
  split; [now erewrite run_returns by eassumption|].
  split; [reflexivity|].
  intros e He. injection He as He. rewrite <- He. simpl. tauto.
Qed.

Lemma successful_submission_last_entry_witness :
  strip (lit "Hello") <> lit "" /\
  Demo.echo (lit "Hello") 0%nat = (Ret (lit "You said: Hello"), 1%nat) /\
  last (transcript (submit Demo.echo (lit "Hello") (fresh 0%nat))) =
    Some {| user := lit "Hello"; bot := lit "You said: Hello" |}.
Proof.
  split; [vm_compute; discriminate|]. split; [reflexivity|].
  apply (successful_submission_last_entry Demo.echo (fresh 0%nat) (lit "Hello")
           (lit "You said: Hello") 1%nat); [vm_compute; discriminate | reflexivity].
Defined.

(** C1 as stated fails when the generator returns the text of the
    placeholder: the last entry then holds the returned string, and that
    string is "Thinking...". *)
Lemma successful_submission_placeholder_reply :
  strip (lit "Hello") <> lit "" /\
  Demo.parrot (lit "Hello") 0%nat = (Ret (lit "Thinking..."), 1%nat) /\
  ~ (exists e, last (transcript (submit Demo.parrot (lit "Hello") (fresh 0%nat))) = Some e /\
               user e = lit "Hello" /\ bot e = lit "Thinking..." /\
               bot e <> lit "Thinking...").
Proof.
  split; [vm_compute; discriminate|]. split; [reflexivity|].
  intros (e & _ & _ & Hb & Hn). exact (Hn Hb).
Qed.

(** C2, amended.  When the generator call of a valid submission raises an
    instance of [Exception], the exception does not leave the script (the run
    ends normally), the last entry of the transcript has the fixed error
    marker as [bot], a notice carrying the description of the exception is on
    the page, and a following valid submission is handled as usual: its entry
    is appended. *)
Theorem failed_generation_recovered {W} (gen : str -> M W str)
    (s : state W) (text : str) (x : exc) (w' : W) :
  strip text <> lit "" ->
  gen text (world s) = (Raise x, w') ->
  exc_is_Exception x = true ->
  fst (run gen (submission text) s) = Ret tt /\
  last (transcript (submit gen text s)) =
    Some {| user := text; bot := lit "Error: Unable to process your request." |} /\
  In (Error (lit "An error occurred: " ++ exc_str x)) (page (submit gen text s)) /\
  (forall text2, strip text2 <> lit "" ->
     transcript (submit gen text2 (submit gen text s)) =
     transcript (submit gen text s) ++
       [ {| user := text2; bot := bot_after (fst (gen text2 w')) |} ]).
Proof.
  intros Hne Hg Hx. apply not_stripped_empty in Hne.
  split; [|split; [|split]].
  - erewrite run_recovers by eassumption. reflexivity.
  - rewrite transcript_submit, Hg by exact Hne. simpl. rewrite Hx. apply last_snoc.
  - unfold submit, rerun. erewrite run_recovers by eassumption.
    apply notice_rendered. left. reflexivity.
  - intros text2 Hne2. apply not_stripped_empty in Hne2.
    rewrite transcript_submit by exact Hne2.
    rewrite (world_submit gen text s Hne), Hg. reflexivity.
Qed.

Lemma failed_generation_recovered_witness :
  strip (lit "Hello") <> lit "" /\
  Demo.failing (lit "Hello") 0%nat = (Raise Demo.out_of_memory, 1%nat) /\
  exc_is_Exception Demo.out_of_memory = true /\
  fst (run Demo.failing (submission (lit "Hello")) (fresh 0%nat)) = Ret tt /\
  last (transcript (submit Demo.failing (lit "Hello") (fresh 0%nat))) =
    Some {| user := lit "Hello"; bot := lit "Error: Unable to process your request." |}.
Proof.
  split; [vm_compute; discriminate|]. split; [reflexivity|]. split; [reflexivity|].
  destruct (failed_generation_recovered Demo.failing (fresh 0%nat) (lit "Hello")
              Demo.out_of_memory 1%nat) as (H1 & H2 & _);
    [vm_compute; discriminate | reflexivity | reflexivity |].
  exact (conj H1 H2).
Defined.

(** C2 as stated fails for an exception that is not an instance of
    [Exception]: [except Exception] lets it through, the run ends with the
    exception, the entry keeps the placeholder and no notice is rendered. *)
Lemma escaping_exception_not_recovered :
  strip (lit "Hello") <> lit "" /\
  Demo.exiting (lit "Hello") 0%nat = (Raise Demo.system_exit, 1%nat) /\
  fst (run Demo.exiting (submission (lit "Hello")) (fresh 0%nat)) = Raise Demo.system_exit /\
  last (transcript (submit Demo.exiting (lit "Hello") (fresh 0%nat))) =
    Some {| user := lit "Hello"; bot := lit "Thinking..." |} /\
  page (submit Demo.exiting (lit "Hello") (fresh 0%nat)) = page_head.
Proof.
  split; [vm_compute; discriminate|]. repeat split; reflexivity.
Qed.

(** C3.  A submission whose input is empty or all whitespace ends normally
    with the validation notice on the page; the transcript is the one from
    before, nothing being appended; the generator is not called: its runtime
    state is untouched and the outcome of the run is the same whatever the
    generator is. *)
Theorem blank_submission_rejected {W} (gen : str -> M W str)
    (s : state W) (text : str) :
  blank text = true ->
  str_eqb (strip text) (lit "") = true /\
  fst (run gen (submission text) s) = Ret tt /\
  In (Error (lit "Please enter a message.")) (page (submit gen text s)) /\
  transcript (submit gen text s) = transcript s /\
  length (transcript (submit gen text s)) = length (transcript s) /\
  world (submit gen text s) = world s /\
  (forall gen' : str -> M W str,
      run gen' (submission text) s = run gen (submission text) s).
Proof.
  intros Hb. split; [now rewrite strip_test|].
  unfold submit, rerun. rewrite run_blank by exact Hb. cbn [fst snd page world].
  split; [reflexivity|]. split; [apply notice_rendered; left; reflexivity|].
  split; [reflexivity|]. split; [reflexivity|]. split; [reflexivity|].
  intros gen'. now rewrite run_blank.
Qed.

Lemma blank_submission_rejected_witness :
  blank (lit "   ") = true /\
  transcript (submit Demo.echo (lit "   ") (submit Demo.echo (lit "Hello") (fresh 0%nat))) =
  transcript (submit Demo.echo (lit "Hello") (fresh 0%nat)).
Proof.
  split; [reflexivity|].
  apply (blank_submission_rejected Demo.echo
           (submit Demo.echo (lit "Hello") (fresh 0%nat)) (lit "   ")).
  reflexivity.
Defined.

End Session.

(** ** The transcript: order, rendering, pending entries *)

Module Transcript.
Import StripFacts RunFacts.

Section Invariants.
Context {W : Type} (gen : str -> M W str).

(** No run removes or rewrites an entry that was there before it. *)
Lemma transcript_rerun_prefix (ev : widgets) (s : state W) :
  transcript s `prefix_of` transcript (rerun gen ev s).
Proof.
  rewrite transcript_rerun.
  destruct (send_clicked ev && negb (blank (input_box ev))).
  - now apply prefix_app_r.
  - reflexivity.
Qed.

Lemma transcript_reruns_prefix (evs : list widgets) (s : state W) :
  transcript s `prefix_of` transcript (reruns gen evs s).
Proof.
  revert s. induction evs as [|ev evs IH]; intros s; simpl.
  - reflexivity.
  - etransitivity; [apply (transcript_rerun_prefix ev)|apply IH].
Qed.

Lemma reachable_reruns (w0 : W) (evs : list widgets) (s : state W) :
  reachable gen w0 s -> reachable gen w0 (reruns gen evs s).
Proof.
  revert s. induction evs as [|ev evs IH]; intros s Hs; simpl.
  - exact Hs.
  - apply IH. now constructor.
Qed.

Lemma pending_placeholder (text : str) :
  pending {| user := text; bot := PLACEHOLDER |} = true.
Proof. unfold pending, str_eqb. apply bool_decide_eq_true. reflexivity. Qed.

Lemma pending_false (e : entry) : bot e <> PLACEHOLDER -> pending e = false.
Proof. intros H. unfold pending, str_eqb. now apply bool_decide_eq_false. Qed.

Lemma error_marker_not_placeholder : ERROR_MARKER <> PLACEHOLDER.
Proof. vm_compute. discriminate. Qed.

(** Under the two assumptions on the generator, an entry never ends a run
    with the placeholder as its bot text. *)
Lemma bot_after_not_pending (text p : str) (w : W) :
  never_placeholder gen -> raises_only_Exception gen ->
  pending {| user := text; bot := bot_after (fst (gen p w)) |} = false.
Proof.
  intros Hnp Hex. apply pending_false. simpl.
  destruct (gen p w) as [[r|x] w'] eqn:Hg; simpl.
  - eapply Hnp, Hg.
  - rewrite (Hex _ _ _ _ Hg). apply error_marker_not_placeholder.
Qed.

Lemma idle_no_pending (w0 : W) (s : state W) :
  never_placeholder gen -> raises_only_Exception gen ->
  reachable gen w0 s -> filter pending (transcript s) = [].
Proof.
  intros Hnp Hex Hs. induction Hs as [|s ev Hs IH].
  - reflexivity.
  - rewrite transcript_rerun.
    destruct (send_clicked ev && negb (blank (input_box ev))); [|exact IH].
    rewrite filter_app, IH. simpl.
    rewrite filter_cons_False; [reflexivity|].
    rewrite (bot_after_not_pending _ _ _ Hnp Hex). simpl. tauto.
Qed.

End Invariants.

(** C10.  In every state a session reaches, and in the state in which a
    generator call is in flight, the [user] field of every entry of the
    transcript is not empty and not all whitespace: it passed the strip
    check before its append. *)
Theorem user_fields_not_blank {W} (gen : str -> M W str) (w0 : W) (s : state W) :
  reachable gen w0 s ->
  Forall (fun e => user e <> lit "" /\ blank (user e) = false /\ strip (user e) <> lit "")
         (transcript s) /\
  (forall text, strip text <> lit "" ->
     Forall (fun e => user e <> lit "" /\ blank (user e) = false /\ strip (user e) <> lit "")
            (transcript (in_flight text s))).
Proof.
  assert (Hok : forall t : str, blank t = false ->
            t <> lit "" /\ blank t = false /\ strip t <> lit "").
  { intros t Hb. split; [|split; [exact Hb|]].
    - intros ->. discriminate.
    - rewrite lit_empty, strip_nil_blank, Hb. discriminate. }
  intros Hs.
  assert (Hinv : Forall (fun e => user e <> lit "" /\ blank (user e) = false /\
                                  strip (user e) <> lit "") (transcript s)).
  { induction Hs as [|s ev Hs IH].
    - constructor.
    - rewrite transcript_rerun.
      destruct (send_clicked ev) eqn:Hc; simpl; [|exact IH].
      destruct (blank (input_box ev)) eqn:Hb; simpl; [exact IH|].
      apply Forall_app. split; [exact IH|].
      constructor; [|constructor]. simpl. now apply Hok. }
  split; [exact Hinv|].
  intros text Hne. rewrite in_flight_eq. unfold transcript at 1. simpl.
  apply Forall_app. split; [exact Hinv|].
  constructor; [|constructor]. simpl. apply Hok, Session.not_stripped_empty, Hne.
Qed.

Lemma user_fields_not_blank_witness :
  reachable Demo.echo 0%nat
    (submit Demo.echo (lit " ") (submit Demo.echo (lit "Hello") (fresh 0%nat))) /\
  Forall (fun e => user e <> lit "" /\ blank (user e) = false /\ strip (user e) <> lit "")
    (transcript (submit Demo.echo (lit " ") (submit Demo.echo (lit "Hello") (fresh 0%nat)))).
Proof.
  assert (Hr : reachable Demo.echo 0%nat
    (submit Demo.echo (lit " ") (submit Demo.echo (lit "Hello") (fresh 0%nat)))).
  { unfold submit. apply reachable_rerun, reachable_rerun, reachable_fresh. }
  split; [exact Hr|].
  exact (proj1 (user_fields_not_blank Demo.echo 0%nat _ Hr)).
Defined.

(** C7.  Submitting a valid input [A] and then a valid input [B] appends the
    entry of [A] and then the entry of [B]: in a session on first load the
    transcript is exactly these two entries in that order, each with the bot
    text its own generator call left, and the page of a run lists the lines
    of the entries in the same order. *)
Theorem two_submissions_in_order {W} (gen : str -> M W str) (s : state W) (A B : str) :
  strip A <> lit "" -> strip B <> lit "" ->
  let respA := bot_after (fst (gen A (world s))) in
  let respB := bot_after (fst (gen B (world (submit gen A s)))) in
  let final := submit gen B (submit gen A s) in
  transcript final =
    transcript s ++ [ {| user := A; bot := respA |}; {| user := B; bot := respB |} ] /\
  (transcript s = [] ->
   transcript final = [ {| user := A; bot := respA |}; {| user := B; bot := respB |} ] /\
   forall t, page (rerun gen (refresh t) final) =
     page_head ++
     [ Write (lit "### Chat Log:");
       Markdown (lit "**You:** " ++ A); Markdown (lit "**Bot:** " ++ respA);
       Markdown (lit "**You:** " ++ B); Markdown (lit "**Bot:** " ++ respB) ]).
Proof.
  intros HA HB respA respB final.
  apply Session.not_stripped_empty in HA, HB.
  assert (Ht : transcript final =
    transcript s ++ [ {| user := A; bot := respA |}; {| user := B; bot := respB |} ]).
  { unfold final. rewrite !transcript_submit by assumption.
    rewrite <- app_assoc. reflexivity. }
  split; [exact Ht|].
  intros Hs. rewrite Hs in Ht. simpl in Ht. split; [exact Ht|].
  intros t. unfold rerun. rewrite run_refresh. simpl. rewrite Ht. reflexivity.
Qed.

Lemma two_submissions_in_order_witness :
  strip (lit "A") <> lit "" /\ strip (lit "B") <> lit "" /\
  transcript (submit Demo.echo (lit "B") (submit Demo.echo (lit "A") (fresh 0%nat))) =
    [ {| user := lit "A"; bot := lit "You said: A" |};
      {| user := lit "B"; bot := lit "You said: B" |} ].
Proof.
  split; [vm_compute; discriminate|]. split; [vm_compute; discriminate|].
  apply (two_submissions_in_order Demo.echo (fresh 0%nat) (lit "A") (lit "B"));
    [vm_compute; discriminate | vm_compute; discriminate | reflexivity].
Defined.

(** C9.  A run without a submission renders a page that is a function of
    the transcript alone, and leaves the transcript as it is; so rendering
    twice in a row gives the same page, with the same lines for the entries,
    both times. *)
Theorem display_idempotent {W} (gen : str -> M W str) (s : state W) (t1 t2 : str) :
  let once := rerun gen (refresh t1) s in
  let twice := rerun gen (refresh t2) once in
  page once = page_head ++ Write (lit "### Chat Log:") :: log_lines (transcript s) /\
  transcript once = transcript s /\
  page twice = page once /\
  transcript twice = transcript once.
Proof.
  intros once twice. unfold twice, once, rerun. rewrite !run_refresh. simpl.
  repeat split.
Qed.

(** C4, amended.  Provided the generator never returns the text
    "Thinking..." and raises instances of [Exception] only: between runs no
    entry of the transcript is pending; while the generator call of a valid
    submission is in flight exactly one entry is pending, the one appended
    last; and the run ends normally with that entry resolved to the
    generated text or to the error marker, no entry being pending when the
    next submission can come. *)
Theorem one_pending_entry_in_flight {W} (gen : str -> M W str)
    (w0 : W) (s : state W) (text : str) :
  never_placeholder gen -> raises_only_Exception gen ->
  reachable gen w0 s ->
  strip text <> lit "" ->
  filter pending (transcript s) = [] /\
  run gen (submission text) s = from_generate gen text (in_flight text s) /\
  transcript (in_flight text s) =
    transcript s ++ [ {| user := text; bot := lit "Thinking..." |} ] /\
  filter pending (transcript (in_flight text s)) =
    [ {| user := text; bot := lit "Thinking..." |} ] /\
  last (transcript (in_flight text s)) =
    Some {| user := text; bot := lit "Thinking..." |} /\
  fst (run gen (submission text) s) = Ret tt /\
  (exists v, last (transcript (submit gen text s)) = Some {| user := text; bot := v |} /\
     (fst (gen text (world s)) = Ret v \/
      (exists x, fst (gen text (world s)) = Raise x) /\
      v = lit "Error: Unable to process your request.")) /\
  filter pending (transcript (submit gen text s)) = [].
Proof.
  intros Hnp Hex Hs Hne. apply Session.not_stripped_empty in Hne.
  pose proof (idle_no_pending gen w0 s Hnp Hex Hs) as Hidle.
  assert (Hfl : transcript (in_flight text s) =
                transcript s ++ [ {| user := text; bot := PLACEHOLDER |} ]).
  { now rewrite in_flight_eq. }
  split; [exact Hidle|]. split; [now apply run_split|].
  split; [exact Hfl|]. split; [|split; [|split; [|split]]].
  - rewrite Hfl, filter_app, Hidle. simpl.
    rewrite filter_cons_True; [reflexivity|].
    rewrite pending_placeholder. exact I.
  - rewrite Hfl. apply last_snoc.
  - destruct (gen text (world s)) as [[r|x] w'] eqn:Hg.
    + now erewrite run_returns by eassumption.
    + erewrite run_recovers; [reflexivity|exact Hne|exact Hg|].
      exact (Hex _ _ _ _ Hg).
  - exists (bot_after (fst (gen text (world s)))).
    rewrite transcript_submit by exact Hne. split; [apply last_snoc|].
    destruct (gen text (world s)) as [[r|x] w'] eqn:Hg; simpl.
    + left. reflexivity.
    + right. split; [now exists x|]. now rewrite (Hex _ _ _ _ Hg).
  - apply (idle_no_pending gen w0); [exact Hnp|exact Hex|].
    unfold submit. now constructor.
Qed.

Lemma echo_never_placeholder : never_placeholder Demo.echo.
Proof. intros p w r w' [= <- _]. discriminate. Qed.

Lemma echo_raises_only_Exception : raises_only_Exception Demo.echo.
Proof. intros p w e w' H. discriminate H. Qed.

Lemma one_pending_entry_in_flight_witness :
  never_placeholder Demo.echo /\ raises_only_Exception Demo.echo /\
  reachable Demo.echo 0%nat (submit Demo.echo (lit "Hello") (fresh 0%nat)) /\
  strip (lit "Again") <> lit "" /\
  filter pending (transcript (in_flight (lit "Again")
                    (submit Demo.echo (lit "Hello") (fresh 0%nat)))) =
    [ {| user := lit "Again"; bot := lit "Thinking..." |} ].
Proof.
  assert (Hr : reachable Demo.echo 0%nat (submit Demo.echo (lit "Hello") (fresh 0%nat))).
  { unfold submit. apply reachable_rerun, reachable_fresh. }
  assert (Hne : strip (lit "Again") <> lit "") by (vm_compute; discriminate).
  split; [exact echo_never_placeholder|]. split; [exact echo_raises_only_Exception|].
  split; [exact Hr|]. split; [exact Hne|].
  destruct (one_pending_entry_in_flight Demo.echo 0%nat _ (lit "Again")
              echo_never_placeholder echo_raises_only_Exception Hr Hne)
    as (_ & _ & _ & H & _).
  exact H.
Defined.

(** C4 as stated fails when the generator returns the placeholder text: the
    resolved entry still counts as pending between runs, and two entries are
    pending while the next generator call is in flight. *)
Lemma pending_entry_outside_generation :
  reachable Demo.parrot 0%nat (submit Demo.parrot (lit "Hello") (fresh 0%nat)) /\
  fst (run Demo.parrot (submission (lit "Hello")) (fresh 0%nat)) = Ret tt /\
  length (filter pending (transcript (submit Demo.parrot (lit "Hello") (fresh 0%nat)))) = 1%nat /\
  length (filter pending (transcript (in_flight (lit "Again")
            (submit Demo.parrot (lit "Hello") (fresh 0%nat))))) = 2%nat.
Proof.
  split; [unfold submit; apply reachable_rerun, reachable_fresh|].
  repeat split; reflexivity.
Qed.

(** C8, amended.  The entry of a valid submission is appended with the
    placeholder as its bot text, the entries before it staying as they are.
    The generator call then resolves it at most once, by an update of the
    bot field of that last entry alone: to the generated text when the call
    returns, to the error marker when it raises an instance of [Exception],
    and not at all when it raises anything else.  No later run removes or
    changes it. *)
Theorem entry_lifecycle {W} (gen : str -> M W str) (s : state W) (text : str) :
  strip text <> lit "" ->
  let s1 := in_flight text s in
  let s2 := submit gen text s in
  let n := length (transcript s) in
  run gen (submission text) s = from_generate gen text s1 /\
  transcript s1 = transcript s ++ [ {| user := text; bot := lit "Thinking..." |} ] /\
  (match fst (gen text (world s)) with
   | Ret r => transcript s2 = alter (set_bot r) n (transcript s1)
   | Raise x =>
       if exc_is_Exception x
       then transcript s2 =
              alter (set_bot (lit "Error: Unable to process your request.")) n (transcript s1)
       else transcript s2 = transcript s1
   end) /\
  (forall v i, i <> n -> alter (set_bot v) n (transcript s1) !! i = transcript s1 !! i) /\
  (forall v, user <$> alter (set_bot v) n (transcript s1) = user <$> transcript s1) /\
  take n (transcript s2) = transcript s /\
  user <$> transcript s2 = user <$> transcript s1 /\
  (forall evs, transcript s2 `prefix_of` transcript (reruns gen evs s2)).
Proof.
  intros Hne s1 s2 n. apply Session.not_stripped_empty in Hne.
  assert (H1 : transcript s1 = transcript s ++ [ {| user := text; bot := PLACEHOLDER |} ]).
  { unfold s1. now rewrite in_flight_eq. }
  assert (H2 : transcript s2 = transcript s ++
            [ {| user := text; bot := bot_after (fst (gen text (world s))) |} ]).
  { unfold s2. now rewrite transcript_submit. }
  assert (Halt : forall v, alter (set_bot v) n (transcript s1) =
                           transcript s ++ [ {| user := text; bot := v |} ]).
  { intros v. rewrite H1. unfold n. rewrite alter_app_r_alt by lia.
    rewrite Nat.sub_diag. reflexivity. }
  split; [now apply run_split|]. split; [exact H1|].
  split; [|split; [|split; [|split; [|split]]]].
  - rewrite H2. destruct (fst (gen text (world s))) as [r|x]; simpl.
    + now rewrite Halt.
    + destruct (exc_is_Exception x); [now rewrite Halt | now rewrite H1].
  - intros v i Hi. now apply list_lookup_alter_ne.
  - intros v. rewrite Halt, H1, !fmap_app. reflexivity.
  - rewrite H2. unfold n. now rewrite take_app_length.
  - rewrite H2, H1, !fmap_app. reflexivity.
  - intros evs. apply transcript_reruns_prefix.
Qed.

Lemma entry_lifecycle_witness :
  strip (lit "Hello") <> lit "" /\
  transcript (in_flight (W:=nat) (lit "Hello") (fresh 0%nat)) =
    [ {| user := lit "Hello"; bot := lit "Thinking..." |} ] /\
  transcript (submit Demo.echo (lit "Hello") (fresh 0%nat)) =
    [ {| user := lit "Hello"; bot := lit "You said: Hello" |} ].
Proof.
  assert (Hne : strip (lit "Hello") <> lit "") by (vm_compute; discriminate).
  split; [exact Hne|].
  destruct (entry_lifecycle Demo.echo (fresh 0%nat) (lit "Hello") Hne)
    as (_ & H1 & H2 & _).
  split; [exact H1|exact H2].
Defined.

(** C8 as stated fails when the generator raises an exception that is not
    an instance of [Exception]: the entry is never updated, and keeps the
    placeholder through the runs that follow. *)
Lemma escaped_entry_never_resolved :
  strip (lit "Hello") <> lit "" /\
  Demo.exiting (lit "Hello") 0%nat = (Raise Demo.system_exit, 1%nat) /\
  transcript (in_flight (W:=nat) (lit "Hello") (fresh 0%nat)) =
    [ {| user := lit "Hello"; bot := lit "Thinking..." |} ] /\
  transcript (submit Demo.exiting (lit "Hello") (fresh 0%nat)) =
    [ {| user := lit "Hello"; bot := lit "Thinking..." |} ] /\
  transcript (reruns Demo.exiting [refresh (lit ""); refresh (lit "")]
                (submit Demo.exiting (lit "Hello") (fresh 0%nat))) =
    [ {| user := lit "Hello"; bot := lit "Thinking..." |} ].
Proof.
  split; [vm_compute; discriminate|]. repeat split; reflexivity.
Qed.

End Transcript.

(** ** The generator *)

Module Generator.
Import backend.

Section Pipeline.
Context {W : Type} (rt : Runtime W).

(** With the shapes respected, a generation on an encoded prompt that
    returns gives exactly one row. *)
Lemma one_candidate (prompt : str) (w w1 w2 : W) (inputs outputs : tensor) :
  shapes_respected rt ->
  tokenizer_encode rt prompt w = (Ret inputs, w1) ->
  model_generate rt inputs kwargs w1 = (Ret outputs, w2) ->
  exists row, outputs = [row].
Proof.
  intros [Henc Hgen] He Hg.
  apply Henc in He. apply Hgen in Hg. rewrite He in Hg. simpl in Hg.
  destruct outputs as [|row [|row' rest]]; try discriminate.
  now exists row.
Qed.

(** The call unfolded along the state of the runtime. *)
Lemma generate_response_unfold (prompt : str) (w : W) :
  generate_response rt prompt w =
  match tokenizer_encode rt prompt w with
  | (Raise e, w1) => (Raise e, w1)
  | (Ret inputs, w1) =>
      match model_generate rt inputs kwargs w1 with
      | (Raise e, w2) => (Raise e, w2)
      | (Ret outputs, w2) =>
          match outputs with
          | [] => (Raise (IndexError "index 0 is out of bounds for dimension 0 with size 0"), w2)
          | row :: _ => tokenizer_decode rt row true w2
          end
      end
  end.
Proof.
  unfold generate_response, bind.
  destruct (tokenizer_encode rt prompt w) as [[inputs|e] w1]; [|reflexivity].
  destruct (model_generate rt inputs kwargs w1) as [[outputs|e] w2]; [|reflexivity].
  destruct outputs as [|row rest]; simpl; [reflexivity|].
  unfold ret. destruct (tokenizer_decode rt row true w2) as [[r|e] w3]; reflexivity.
Qed.

End Pipeline.

(** C5.  For every prompt, [generate_response] returns a text exactly when
    the prompt is encoded, generation is invoked on the encoding with
    maximum length 50, one returned sequence and no-repeat n-gram size 2 and
    yields its one candidate sequence, and that sequence is decoded with
    special tokens skipped; the text returned is the decoded one. *)
Theorem generate_response_pipeline {W} (rt : Runtime W)
    (prompt : str) (w : W) (response : str) (w' : W) :
  shapes_respected rt ->
  (generate_response rt prompt w = (Ret response, w') <->
   exists inputs w1 row w2,
     tokenizer_encode rt prompt w = (Ret inputs, w1) /\
     model_generate rt inputs
       {| max_length := 50; num_return_sequences := 1; no_repeat_ngram_size := 2 |} w1 =
       (Ret [row], w2) /\
     tokenizer_decode rt row true w2 = (Ret response, w')).
Proof.
  intros Hshape. rewrite generate_response_unfold. split.
  - destruct (tokenizer_encode rt prompt w) as [[inputs|e] w1] eqn:He; [|discriminate].
    destruct (model_generate rt inputs kwargs w1) as [[outputs|e] w2] eqn:Hg; [|discriminate].
    destruct (one_candidate rt prompt w w1 w2 inputs outputs Hshape He Hg) as [row ->].
    intros Hd. exists inputs, w1, row, w2. auto.
  - intros (inputs & w1 & row & w2 & He & Hg & Hd).
    rewrite He. fold kwargs in Hg. rewrite Hg. exact Hd.
Qed.

Lemma toy_generate_rows (kw : generate_kwargs) (t : tensor) :
  length (flat_map (Demo.toy_generate_row kw) t) =
  (length t * N.to_nat (num_return_sequences kw))%nat.
Proof.
  induction t as [|row t IH]; simpl; [reflexivity|].
  rewrite length_app, IH. unfold Demo.toy_generate_row.
  now rewrite repeat_length.
Qed.

Lemma toy_shapes_respected : shapes_respected Demo.toy.
Proof.
  split.
  - intros p w t w' [= <- _]. reflexivity.
  - intros t kw w out w' [= <- _]. apply toy_generate_rows.
Qed.

Lemma generate_response_pipeline_witness :
  shapes_respected Demo.toy /\
  exists inputs w1 row w2,
    tokenizer_encode Demo.toy (lit "hi there") 0%nat = (Ret inputs, w1) /\
    model_generate Demo.toy inputs
      {| max_length := 50; num_return_sequences := 1; no_repeat_ngram_size := 2 |} w1 =
      (Ret [row], w2) /\
    tokenizer_decode Demo.toy row true w2 = (Ret (lit "hi there"), 3%nat).
Proof.
  split; [exact toy_shapes_respected|].
  apply (generate_response_pipeline Demo.toy (lit "hi there") 0%nat (lit "hi there") 3%nat
           toy_shapes_respected).
  reflexivity.
Defined.

(** C6.  For every prompt, the non-empty ones in particular: when the calls
    into the runtime return (the encoding, the generation, and the decoding
    of the generated row), [generate_response] returns a string, which may
    be empty, and raises nothing. *)
Theorem generate_response_returns_string {W} (rt : Runtime W)
    (prompt : str) (w w1 w2 : W) (inputs outputs : tensor) :
  shapes_respected rt ->
  prompt <> lit "" ->
  tokenizer_encode rt prompt w = (Ret inputs, w1) ->
  model_generate rt inputs kwargs w1 = (Ret outputs, w2) ->
  (forall row, head outputs = Some row -> succeeds (tokenizer_decode rt row true) w2) ->
  exists (response : str) (w3 : W),
    generate_response rt prompt w = (Ret response, w3) /\
    (forall e w4, generate_response rt prompt w <> (Raise e, w4)).
Proof.
  intros Hshape _ He Hg Hd.
  destruct (one_candidate rt prompt w w1 w2 inputs outputs Hshape He Hg) as [row ->].
  destruct (Hd row eq_refl) as (response & w3 & Hr).
  exists response, w3.
  assert (Heq : generate_response rt prompt w = (Ret response, w3)).
  { rewrite generate_response_unfold, He, Hg. exact Hr. }
  split; [exact Heq|]. intros e w4. rewrite Heq. discriminate.
Qed.

Lemma generate_response_returns_string_witness :
  shapes_respected Demo.toy /\
  lit "hi there" <> lit "" /\
  exists (response : str) (w3 : nat),
    generate_response Demo.toy (lit "hi there") 0%nat = (Ret response, w3) /\
    (forall e w4, generate_response Demo.toy (lit "hi there") 0%nat <> (Raise e, w4)).
Proof.
  split; [exact toy_shapes_respected|]. split; [vm_compute; discriminate|].
  apply (generate_response_returns_string Demo.toy (lit "hi there") 0%nat 1%nat 2%nat
           [lit "hi there"] [lit "hi there" ++ [Demo.EOS]] toy_shapes_respected).
  - vm_compute. discriminate.
  - reflexivity.
  - reflexivity.
  - intros row _. eexists _, _. reflexivity.
Defined.

End Generator.

(** ** Whole runs of the page *)

Module Runs.
Import StripFacts RunFacts.

Lemma accepted_blank (ev : widgets) :
  accepted ev = send_clicked ev && negb (blank (input_box ev)).
Proof. unfold accepted. now rewrite strip_test. Qed.

Lemma blank_false_iff (t : str) :
  blank t = false <-> exists c, In c t /\ isspace c = false.
Proof.
  split; [apply not_blank_has_char|].
  intros (c & Hin & Hc). destruct (blank t) eqn:Hb; [|reflexivity].
  unfold blank in Hb. rewrite forallb_forall in Hb.
  rewrite (Hb c Hin) in Hc. discriminate.
Qed.

Section Cases.
Context {W : Type} (gen : str -> M W str).

(** Every run, in one equation: what it returns or raises, and the state it
    leaves. *)
Lemma run_eq (ev : widgets) (s : state W) :
  run gen ev s =
  if accepted ev then
    match gen (input_box ev) (world s) with
    | (Ret r, w') =>
        let l := transcript s ++ [ {| user := input_box ev; bot := r |} ] in
        (Ret tt, {| world := w'; chat_log := Some l; page := rendered [] l |})
    | (Raise e, w') =>
        if exc_is_Exception e then
          let l := transcript s ++ [ {| user := input_box ev; bot := ERROR_MARKER |} ] in
          (Ret tt, {| world := w'; chat_log := Some l;
                      page := rendered [failure_notice e] l |})
        else
          (Raise e,
           {| world := w';
              chat_log := Some (transcript s ++
                                [ {| user := input_box ev; bot := PLACEHOLDER |} ]);
              page := page_head |})
    end
  else
    (Ret tt, {| world := world s; chat_log := Some (transcript s);
                page := rendered (notices_of gen ev s) (transcript s) |}).
Proof.
  rewrite accepted_blank. unfold notices_of. rewrite strip_test.
  destruct ev as [text [|]]; simpl.
  - fold (submission text). destruct (blank text) eqn:Hb; simpl.
    + now apply run_blank.
    + destruct (gen text (world s)) as [[r|e] w'] eqn:Hg.
      * now apply run_returns.
      * destruct (exc_is_Exception e) eqn:He.
        -- now apply run_recovers.
        -- now apply run_escapes.
  - apply (run_refresh gen text s).
Qed.

Lemma notices_of_accepted (ev : widgets) (s : state W) :
  accepted ev = true ->
  notices_of gen ev s =
  match fst (gen (input_box ev) (world s)) with
  | Ret _ => []
  | Raise e => [failure_notice e]
  end.
Proof.
  unfold accepted, notices_of. destruct (send_clicked ev); [|discriminate].
  simpl. now destruct (str_eqb (strip (input_box ev)) (lit "")).
Qed.

End Cases.

(** The session state after any run holds the key [chat_log], also when the
    run started without it or ended with an exception; the log it holds
    extends the one from before, and on first load it is the empty list. *)
Theorem chat_log_initialised {W} (gen : str -> M W str)
    (ev : widgets) (s : state W) (w : W) (t : str) :
  chat_log (rerun gen ev s) = Some (transcript (rerun gen ev s)) /\
  transcript s `prefix_of` transcript (rerun gen ev s) /\
  chat_log (rerun gen (refresh t) (fresh w)) = Some [].
Proof.
  split; [|split].
  - unfold rerun. rewrite run_eq.
    destruct (accepted ev); [|reflexivity].
    destruct (gen (input_box ev) (world s)) as [[r|e] w']; [reflexivity|].
    destruct (exc_is_Exception e); reflexivity.
  - apply Transcript.transcript_rerun_prefix.
  - unfold rerun. now rewrite run_refresh.
Qed.

(** A run never raises on its own: neither the attribute lookup of
    [chat_log] nor the index [-1] can fail.  It ends normally, or it ends with
    the very exception its generator call raised, which then is not an
    instance of [Exception]. *)
Theorem run_raises_only_from_generator {W} (gen : str -> M W str)
    (ev : widgets) (s : state W) :
  fst (run gen ev s) = Ret tt \/
  exists e w', accepted ev = true /\
               gen (input_box ev) (world s) = (Raise e, w') /\
               exc_is_Exception e = false /\
               fst (run gen ev s) = Raise e.
Proof.
  rewrite run_eq. destruct (accepted ev); [|now left].
  destruct (gen (input_box ev) (world s)) as [[r|e] w'] eqn:Hg; [now left|].
  destruct (exc_is_Exception e) eqn:He; [now left|].
  right. exists e, w'. auto.
Qed.

(** The generator is called once, on the input as typed, in a run that
    passes both tests, and not at all in any other run: the state of its
    runtime moves by that one call or stays, and a run that fails a test has
    the same outcome whatever the generator is. *)
Theorem generator_called_once_if_accepted {W} (gen : str -> M W str)
    (ev : widgets) (s : state W) :
  world (rerun gen ev s) =
    (if accepted ev then snd (gen (input_box ev) (world s)) else world s) /\
  (accepted ev = false ->
   forall gen' : str -> M W str, run gen' ev s = run gen ev s).
Proof.
  split.
  - unfold rerun. rewrite run_eq. destruct (accepted ev); [|reflexivity].
    destruct (gen (input_box ev) (world s)) as [[r|e] w']; [reflexivity|].
    destruct (exc_is_Exception e); reflexivity.
  - intros Ha gen'. rewrite !run_eq, Ha.
    unfold notices_of. unfold accepted in Ha.
    destruct (send_clicked ev); [|reflexivity].
    destruct (str_eqb (strip (input_box ev)) (lit "")); [reflexivity|discriminate].
Qed.

Lemma generator_called_once_if_accepted_witness :
  accepted (submission (lit "  ")) = false /\
  run Demo.failing (submission (lit "  ")) (fresh 0%nat) =
  run Demo.echo (submission (lit "  ")) (fresh 0%nat).
Proof.
  split; [reflexivity|].
  apply (generator_called_once_if_accepted Demo.echo (submission (lit "  ")) (fresh 0%nat)).
  reflexivity.
Defined.

(** Over any sequence of runs the [user] fields of the transcript grow by
    the inputs of the runs that passed both tests, as typed and in order; a
    session started at first load holds exactly those. *)
Theorem user_fields_are_accepted_inputs {W} (gen : str -> M W str)
    (evs : list widgets) (s : state W) (w : W) :
  user <$> transcript (reruns gen evs s) =
    (user <$> transcript s) ++ (input_box <$> filter accepted evs) /\
  user <$> transcript (reruns gen evs (fresh w)) = input_box <$> filter accepted evs /\
  length (transcript (reruns gen evs s)) =
    (length (transcript s) + length (filter accepted evs))%nat.
Proof.
  assert (Hgen : forall s' : state W,
    user <$> transcript (reruns gen evs s') =
    (user <$> transcript s') ++ (input_box <$> filter accepted evs)).
  { induction evs as [|ev evs IH]; intros s'; simpl.
    - now rewrite app_nil_r.
    - rewrite IH, transcript_rerun, <- accepted_blank.
      destruct (accepted ev) eqn:Ha.
      + rewrite filter_cons_True by (rewrite Ha; exact I).
        rewrite fmap_app. simpl. now rewrite <- app_assoc.
      + rewrite filter_cons_False; [reflexivity|]. rewrite Ha. simpl. tauto. }
  split; [apply Hgen|]. split; [apply Hgen|].
  pose proof (f_equal length (Hgen s)) as Hlen.
  now rewrite length_app, !length_fmap in Hlen.
Qed.

(** The page of a run: when the run ends normally, the head, at most one
    notice, the heading of the log and two lines per entry of the transcript
    the run leaves, the entry just resolved included; when the run ends
    with an exception, the head alone. *)
Theorem page_of_run {W} (gen : str -> M W str) (ev : widgets) (s : state W) :
  page (rerun gen ev s) =
    match fst (run gen ev s) with
    | Ret _ => rendered (notices_of gen ev s) (transcript (rerun gen ev s))
    | Raise _ => page_head
    end /\
  (length (notices_of gen ev s) <= 1)%nat /\
  length (log_lines (transcript (rerun gen ev s))) =
    (2 * length (transcript (rerun gen ev s)))%nat.
Proof.
  split; [|split].
  - unfold rerun. rewrite run_eq. destruct (accepted ev) eqn:Ha; [|reflexivity].
    rewrite (notices_of_accepted gen ev s Ha).
    destruct (gen (input_box ev) (world s)) as [[r|e] w']; [reflexivity|].
    simpl. destruct (exc_is_Exception e); reflexivity.
  - unfold notices_of. destruct (send_clicked ev); simpl; [|lia].
    destruct (str_eqb (strip (input_box ev)) (lit "")); simpl; [lia|].
    destruct (fst (gen (input_box ev) (world s))); simpl; lia.
  - generalize (transcript (rerun gen ev s)). intros l.
    induction l as [|e l IH]; [reflexivity|].
    change (log_lines (e :: l)) with (entry_lines e ++ log_lines l).
    rewrite length_app, IH. simpl. lia.
Qed.

(** The test of the button handler accepts exactly the clicked runs whose
    input has a character that is not whitespace, wherever it stands. *)
Theorem accepted_iff_not_whitespace (ev : widgets) :
  accepted ev = true <->
  send_clicked ev = true /\ exists c, In c (input_box ev) /\ isspace c = false.
Proof.
  rewrite accepted_blank, <- blank_false_iff.
  destruct (send_clicked ev), (blank (input_box ev)); simpl; intuition discriminate.
Qed.

End Runs.

(** ** What the pages of a session show *)

Module Pages.
Import StripFacts RunFacts.

Lemma in_rendered (x : element) (notices : list element) (l : list entry) :
  In x (rendered notices l) ->
  In x page_head \/ In x notices \/ x = Write (lit "### Chat Log:") \/
  exists e, In e l /\ In x (entry_lines e).
Proof.
  unfold rendered. rewrite !in_app_iff. simpl. unfold log_lines. rewrite in_flat_map.
  intros [H|[H|[H|H]]]; auto.
Qed.

Lemma not_pending_anywhere (l : list entry) (e : entry) :
  filter pending l = [] -> In e l -> bot e <> PLACEHOLDER.
Proof.
  intros Hf Hin Hb. apply list_elem_of_In in Hin.
  refine (filter_nil_not_elem_of pending l e Hf _ Hin).
  unfold pending, str_eqb. rewrite Hb.
  apply bool_decide_spec. reflexivity.
Qed.

Section Shown.
Context {W : Type} (gen : str -> M W str).

Lemma notices_are_errors (ev : widgets) (s : state W) (x : element) :
  In x (notices_of gen ev s) -> exists body, x = Error body.
Proof.
  unfold notices_of. destruct (send_clicked ev); [|intros []].
  destruct (str_eqb (strip (input_box ev)) (lit "")).
  - intros [<-|[]]. eauto.
  - destruct (fst (gen (input_box ev) (world s))) as [r|e]; [intros []|].
    intros [<-|[]]. unfold failure_notice. eauto.
Qed.

(** With a generator that raises instances of [Exception] only, every run
    ends normally and renders the whole page. *)
Lemma page_when_recovering (ev : widgets) (s : state W) :
  raises_only_Exception gen ->
  page (rerun gen ev s) = rendered (notices_of gen ev s) (transcript (rerun gen ev s)).
Proof.
  intros Hex. unfold rerun. rewrite Runs.run_eq.
  destruct (Derived.accepted ev) eqn:Ha; [|reflexivity].
  rewrite (Runs.notices_of_accepted gen ev s Ha).
  destruct (gen (input_box ev) (world s)) as [[r|e] w'] eqn:Hg; [reflexivity|].
  rewrite (Hex _ _ _ _ Hg). reflexivity.
Qed.

End Shown.

(** The placeholder is never shown: with a generator that never returns the
    text "Thinking..." and raises instances of [Exception] only, no page of a
    session has the line "**Bot:** Thinking...", since the log is rendered
    after the entry is resolved. *)
Theorem placeholder_never_rendered {W} (gen : str -> M W str) (w0 : W) (s : state W) :
  never_placeholder gen -> raises_only_Exception gen ->
  reachable gen w0 s ->
  ~ In (Markdown (lit "**Bot:** Thinking...")) (page s).
Proof.
  intros Hnp Hex Hs Hin.
  pose proof (Transcript.idle_no_pending gen w0 s Hnp Hex Hs) as Hidle.
  destruct Hs as [|s ev Hs]; [destruct Hin|].
  rewrite page_when_recovering in Hin by exact Hex.
  apply in_rendered in Hin. destruct Hin as [Hin|[Hin|[Hin|(e & He & Hin)]]].
  - simpl in Hin. repeat (destruct Hin as [Hin|Hin]; [discriminate Hin|]). exact Hin.
  - apply notices_are_errors in Hin. destruct Hin as [body Hb]. discriminate Hb.
  - discriminate Hin.
  - apply (not_pending_anywhere _ e Hidle He).
    destruct Hin as [Hin|[Hin|[]]].
    + exfalso. injection Hin as Hin. vm_compute in Hin. discriminate Hin.
    + change (lit "**Bot:** Thinking...") with (lit "**Bot:** " ++ PLACEHOLDER) in Hin.
      assert (Hb : lit "**Bot:** " ++ bot e = lit "**Bot:** " ++ PLACEHOLDER) by congruence.
      exact (app_inv_head _ _ _ Hb).
Qed.

Lemma placeholder_never_rendered_witness :
  never_placeholder Demo.echo /\ raises_only_Exception Demo.echo /\
  reachable Demo.echo 0%nat (submit Demo.echo (lit "Hello") (fresh 0%nat)) /\
  ~ In (Markdown (lit "**Bot:** Thinking..."))
       (page (submit Demo.echo (lit "Hello") (fresh 0%nat))).
Proof.
  assert (Hr : reachable Demo.echo 0%nat (submit Demo.echo (lit "Hello") (fresh 0%nat))).
  { unfold submit. apply reachable_rerun, reachable_fresh. }
  split; [exact Transcript.echo_never_placeholder|].
  split; [exact Transcript.echo_raises_only_Exception|].
  split; [exact Hr|].
  exact (placeholder_never_rendered Demo.echo 0%nat _
           Transcript.echo_never_placeholder Transcript.echo_raises_only_Exception Hr).
Defined.

End Pages.

(** ** The generator's failures, and the page on top of the generator *)

Module Pipeline.
Import backend StripFacts RunFacts.

(** [generate_response] catches nothing and retries nothing: it raises
    exactly when one of its stages does, with the exception and the runtime
    state of that stage, the stages after it not being run.  The stages are
    the encoding, the generation, the indexing of the first row (which fails
    on a tensor with no row) and the decoding. *)
Theorem generate_response_raises_iff {W} (rt : Runtime W)
    (prompt : str) (w : W) (e : exc) (w' : W) :
  generate_response rt prompt w = (Raise e, w') <->
  tokenizer_encode rt prompt w = (Raise e, w') \/
  exists inputs w1,
    tokenizer_encode rt prompt w = (Ret inputs, w1) /\
    (model_generate rt inputs kwargs w1 = (Raise e, w') \/
     exists outputs w2,
       model_generate rt inputs kwargs w1 = (Ret outputs, w2) /\
       ((outputs = [] /\ getitem0 (W:=W) [] w2 = (Raise e, w')) \/
        exists row rest,
          outputs = row :: rest /\
          tokenizer_decode rt row true w2 = (Raise e, w'))).
Proof.
  rewrite Generator.generate_response_unfold.
  destruct (tokenizer_encode rt prompt w) as [[inputs|e1] w1] eqn:He.
  - destruct (model_generate rt inputs kwargs w1) as [[outputs|e2] w2] eqn:Hg.
    + destruct outputs as [|row rest].
      * split.
        -- intros H. right. exists inputs, w1. split; [reflexivity|].
           right. exists [], w2. split; [exact Hg|]. left. split; [reflexivity|exact H].
        -- intros [H|(i & v1 & Hi & [H|(o & v2 & Ho & [[_ H]|(r & rs & Hr & _)])])].
           ++ discriminate H.
           ++ injection Hi as <- <-. rewrite Hg in H. discriminate H.
           ++ injection Hi as <- <-. rewrite Hg in Ho. injection Ho as <- <-. exact H.
           ++ injection Hi as <- <-. rewrite Hg in Ho. injection Ho as <- <-.
              discriminate Hr.
      * split.
        -- intros H. right. exists inputs, w1. split; [reflexivity|].
           right. exists (row :: rest), w2. split; [exact Hg|].
           right. exists row, rest. split; [reflexivity|exact H].
        -- intros [H|(i & v1 & Hi & [H|(o & v2 & Ho & [[Ho' _]|(r & rs & Hr & H)])])].
           ++ discriminate H.
           ++ injection Hi as <- <-. rewrite Hg in H. discriminate H.
           ++ injection Hi as <- <-. rewrite Hg in Ho. injection Ho as <- <-.
              discriminate Ho'.
           ++ injection Hi as <- <-. rewrite Hg in Ho. injection Ho as <- <-.
              injection Hr as <- <-. exact H.
    + split.
      * intros H. injection H as <- <-.
        right. exists inputs, w1. split; [reflexivity|]. now left.
      * intros [H|(i & v1 & Hi & [H|(o & v2 & Ho & _)])].
        -- discriminate H.
        -- injection Hi as <- <-. rewrite Hg in H. injection H as <- <-. reflexivity.
        -- injection Hi as <- <-. rewrite Hg in Ho. discriminate Ho.
  - split.
    + intros H. injection H as <- <-. now left.
    + intros [H|(i & v1 & Hi & _)]; [|discriminate Hi].
      injection H as <- <-. reflexivity.
Qed.

Section OnBackend.
Context {W : Type} (rt : Runtime W).

(** With a runtime that raises instances of [Exception] only, so does the
    generator: the one exception it raises itself, on a tensor with no row,
    is an [IndexError]. *)
Lemma generator_raises_only_Exception :
  runtime_raises_only_Exception rt ->
  raises_only_Exception (generate_response rt).
Proof.
  intros (Henc & Hgen & Hdec) p w e w'.
  rewrite Generator.generate_response_unfold.
  destruct (tokenizer_encode rt p w) as [[inputs|e1] w1] eqn:He.
  - destruct (model_generate rt inputs kwargs w1) as [[outputs|e2] w2] eqn:Hg.
    + destruct outputs as [|row rest].
      * intros [= <- _]. reflexivity.
      * apply Hdec.
    + intros [= <- _]. exact (Hgen _ _ _ _ _ Hg).
  - intros [= <- _]. exact (Henc _ _ _ _ He).
Qed.

End OnBackend.

(** The page on top of the backend: when the runtime raises instances of
    [Exception] only, every run of the script ends normally, whatever the
    input and whichever stage of the generation fails, and every failure of a
    valid submission leaves the error marker in the last entry and its notice
    on the page. *)
Theorem page_recovers_every_backend_failure {W} (rt : Runtime W)
    (ev : widgets) (s : state W) :
  runtime_raises_only_Exception rt ->
  fst (run (generate_response rt) ev s) = Ret tt /\
  (forall e w',
     accepted ev = true ->
     generate_response rt (input_box ev) (world s) = (Raise e, w') ->
     last (transcript (rerun (generate_response rt) ev s)) =
       Some {| user := input_box ev; bot := lit "Error: Unable to process your request." |} /\
     In (Error (lit "An error occurred: " ++ exc_str e))
        (page (rerun (generate_response rt) ev s))).
Proof.
  intros Hrt.
  pose proof (generator_raises_only_Exception rt Hrt) as Hex.
  split.
  - rewrite Runs.run_eq. destruct (accepted ev); [|reflexivity].
    destruct (generate_response rt (input_box ev) (world s)) as [[r|e] w'] eqn:Hg;
      [reflexivity|].
    now rewrite (Hex _ _ _ _ Hg).
  - intros e w' Ha Hg. unfold rerun. rewrite Runs.run_eq, Ha, Hg.
    rewrite (Hex _ _ _ _ Hg). cbn [snd page]. split.
    + apply last_snoc.
    + apply notice_rendered. left. reflexivity.
Qed.

Lemma out_of_memory_runtime_raises_only_Exception :
  runtime_raises_only_Exception out_of_memory_runtime.
Proof.
  split; [|split].
  - intros p w e w' H. discriminate H.
  - intros t kw w e w' [= <- _]. reflexivity.
  - intros ids skip w e w' H. discriminate H.
Qed.

Lemma page_recovers_every_backend_failure_witness :
  runtime_raises_only_Exception out_of_memory_runtime /\
  accepted (submission (lit "Hello")) = true /\
  generate_response out_of_memory_runtime (lit "Hello") 0%nat =
    (Raise Demo.out_of_memory, 2%nat) /\
  fst (run (generate_response out_of_memory_runtime) (submission (lit "Hello"))
         (fresh 0%nat)) = Ret tt /\
  last (transcript (rerun (generate_response out_of_memory_runtime)
                      (submission (lit "Hello")) (fresh 0%nat))) =
    Some {| user := lit "Hello"; bot := lit "Error: Unable to process your request." |}.
Proof.
  split; [exact out_of_memory_runtime_raises_only_Exception|].
  split; [reflexivity|]. split; [reflexivity|].
  destruct (page_recovers_every_backend_failure out_of_memory_runtime
              (submission (lit "Hello")) (fresh 0%nat)
              out_of_memory_runtime_raises_only_Exception) as [Hend Hfail].
  split; [exact Hend|].
  exact (proj1 (Hfail Demo.out_of_memory 2%nat eq_refl eq_refl)).
Defined.

(** End to end: a valid submission whose prompt is encoded, generated from
    and decoded appends the entry made of the input as typed and of the
    decoding of the first generated row; the run ends normally and the
    runtime is left in the state after the decoding. *)
Theorem submission_through_backend {W} (rt : Runtime W) (s : state W) (text : str)
    (inputs : tensor) (row : tokens) (rest : tensor) (response : str) (w1 w2 w3 : W) :
  strip text <> lit "" ->
  tokenizer_encode rt text (world s) = (Ret inputs, w1) ->
  model_generate rt inputs
    {| max_length := 50; num_return_sequences := 1; no_repeat_ngram_size := 2 |} w1 =
    (Ret (row :: rest), w2) ->
  tokenizer_decode rt row true w2 = (Ret response, w3) ->
  fst (run (generate_response rt) (submission text) s) = Ret tt /\
  transcript (submit (generate_response rt) text s) =
    transcript s ++ [ {| user := text; bot := response |} ] /\
  world (submit (generate_response rt) text s) = w3.
Proof.
  intros Hne He Hg Hd. apply Session.not_stripped_empty in Hne.
  assert (Hr : generate_response rt text (world s) = (Ret response, w3)).
  { rewrite Generator.generate_response_unfold, He. fold kwargs in Hg.
    rewrite Hg. exact Hd. }
  unfold submit, rerun. erewrite run_returns by eassumption.
  repeat split.
Qed.

Lemma submission_through_backend_witness :
  strip (lit " hi there ") <> lit "" /\
  transcript (submit (generate_response Demo.toy) (lit " hi there ") (fresh 0%nat)) =
    [ {| user := lit " hi there "; bot := lit " hi there " |} ] /\
  world (submit (generate_response Demo.toy) (lit " hi there ") (fresh 0%nat)) = 3%nat.
Proof.
  assert (Hne : strip (lit " hi there ") <> lit "") by (vm_compute; discriminate).
  split; [exact Hne|].
  destruct (submission_through_backend Demo.toy (fresh 0%nat) (lit " hi there ")
              [lit " hi there "] (lit " hi there " ++ [Demo.EOS]) [] (lit " hi there ")
              1%nat 2%nat 3%nat Hne eq_refl eq_refl eq_refl) as (_ & Ht & Hw).
  split; [exact Ht|exact Hw].
Defined.

End Pipeline.

(** ** An entry left pending *)

Module Pending.
Import StripFacts RunFacts.

Lemma in_log_lines (e : entry) (l : list entry) (x : element) :
  In e l -> In x (entry_lines e) -> In x (log_lines l).
Proof.
  intros He Hx. unfold log_lines. apply in_flat_map. now exists e.
Qed.

Lemma in_rendered_log (x : element) (notices : list element) (l : list entry) :
  In x (log_lines l) -> In x (rendered notices l).
Proof.
  intros Hx. unfold rendered. rewrite !in_app_iff. right. right. now right.
Qed.

(** When the generator call of a valid submission raises an exception that
    is not an instance of [Exception], the entry stays in the transcript with
    the placeholder through all the runs that follow, and every later
    rendering shows the line "**Bot:** Thinking..." for it. *)
Theorem escaped_entry_stays_on_page {W} (gen : str -> M W str)
    (ev : widgets) (s : state W) (e : exc) (w' : W) (evs : list widgets) (t : str) :
  accepted ev = true ->
  gen (input_box ev) (world s) = (Raise e, w') ->
  exc_is_Exception e = false ->
  In {| user := input_box ev; bot := lit "Thinking..." |}
     (transcript (reruns gen evs (rerun gen ev s))) /\
  In (Markdown (lit "**Bot:** Thinking..."))
     (page (rerun gen (refresh t) (reruns gen evs (rerun gen ev s)))).
Proof.
  intros Ha Hg He.
  assert (Hin : In {| user := input_box ev; bot := PLACEHOLDER |}
                   (transcript (reruns gen evs (rerun gen ev s)))).
  { destruct (Transcript.transcript_reruns_prefix gen evs (rerun gen ev s)) as [k ->].
    apply in_app_iff. left. unfold rerun. rewrite Runs.run_eq, Ha, Hg, He.
    cbn [snd]. unfold transcript. cbn [chat_log].
    apply in_app_iff. right. left. reflexivity. }
  split; [exact Hin|].
  unfold rerun at 1. rewrite run_refresh. cbn [snd page].
  apply in_rendered_log. eapply in_log_lines; [exact Hin|].
  right. left. reflexivity.
Qed.

Lemma escaped_entry_stays_on_page_witness :
  accepted (submission (lit "Hello")) = true /\
  Demo.exiting (lit "Hello") 0%nat = (Raise Demo.system_exit, 1%nat) /\
  exc_is_Exception Demo.system_exit = false /\
  In (Markdown (lit "**Bot:** Thinking..."))
     (page (rerun Demo.exiting (refresh (lit ""))
              (reruns Demo.exiting [submission (lit " ")]
                 (rerun Demo.exiting (submission (lit "Hello")) (fresh 0%nat))))).
Proof.
  split; [reflexivity|]. split; [reflexivity|]. split; [reflexivity|].
  exact (proj2 (escaped_entry_stays_on_page Demo.exiting (submission (lit "Hello"))
                  (fresh 0%nat) Demo.system_exit 1%nat [submission (lit " ")] (lit "")
                  eq_refl eq_refl eq_refl)).
Defined.

End Pending.
